(** * Modbus CRC16: the table-driven routine of [benchmark.py]

    A shallow embedding of [crc16_pure_python] (benchmark.py, lines 28-69)
    and of the bit-by-bit reference computation it is compared against.

    Python integers are unbounded, so the accumulator is a [Z] and the
    operators [>>], [^] and [&] are [Z.shiftr], [Z.lxor] and [Z.land] with
    no wrap-around.  A [bytes] object is a [list byte].  The two places
    where the Python code can raise (indexing the tuple, building the
    [bytes] result) are kept fallible. *)

From Stdlib Require Import ZArith List Bool Lia.
From Stdlib Require Import Init.Byte Strings.Byte.
From Stdlib Require Strings.String.
Import ListNotations.

Local Open Scope Z_scope.

(** ** The fragment of the Python runtime the routine relies on *)

Module Py.

(** The exceptions the modelled operations can raise. *)
Inductive exn : Set :=
| IndexError
| ValueError
| OverflowError.

Inductive result (A : Type) : Type :=
| Ok (a : A)
| Raise (e : exn).

Arguments Ok {A} a.
Arguments Raise {A} e.

Definition bind {A B : Type} (m : result A) (k : A -> result B) : result B :=
  match m with
  | Ok a => k a
  | Raise e => Raise e
  end.

(** Iterating over a [bytes] object yields integers in [range(256)]. *)
Definition int_of_byte (b : byte) : Z := Z.of_N (Byte.to_N b).

(** [t[i]] on a tuple: a negative index counts from the end, an index
    outside [-len(t) .. len(t)-1] raises [IndexError]. *)
Definition tuple_getitem (t : list Z) (i : Z) : result Z :=
  let len := Z.of_nat (length t) in
  let j := if i <? 0 then i + len else i in
  if (0 <=? j) && (j <? len)
  then match nth_error t (Z.to_nat j) with
       | Some v => Ok v
       | None => Raise IndexError
       end
  else Raise IndexError.

(** One element of [bytes(iterable_of_ints)]: a value outside
    [range(0, 256)] raises [ValueError]. *)
Definition byte_of_int (x : Z) : result byte :=
  if (0 <=? x) && (x <? 256)
  then match Byte.of_N (Z.to_N x) with
       | Some b => Ok b
       | None => Raise ValueError
       end
  else Raise ValueError.

(** [bytes([x0, x1, ...])]. *)
Fixpoint bytes_of_ints (xs : list Z) : result (list byte) :=
  match xs with
  | [] => Ok []
  | x :: rest =>
      bind (byte_of_int x) (fun b =>
      bind (bytes_of_ints rest) (fun bs =>
      Ok (b :: bs)))
  end.

End Py.

Import Py.

Notation "x <- m ;; k" := (bind m (fun x => k))
  (at level 61, m at next level, right associativity).

(** ** The routine, as written in benchmark.py *)

(** The tuple literal of lines 31-64. *)
Definition table : list Z := [
    0x0000; 0xC0C1; 0xC181; 0x0140; 0xC301; 0x03C0; 0x0280; 0xC241;
    0xC601; 0x06C0; 0x0780; 0xC741; 0x0500; 0xC5C1; 0xC481; 0x0440;
    0xCC01; 0x0CC0; 0x0D80; 0xCD41; 0x0F00; 0xCFC1; 0xCE81; 0x0E40;
    0x0A00; 0xCAC1; 0xCB81; 0x0B40; 0xC901; 0x09C0; 0x0880; 0xC841;
    0xD801; 0x18C0; 0x1980; 0xD941; 0x1B00; 0xDBC1; 0xDA81; 0x1A40;
    0x1E00; 0xDEC1; 0xDF81; 0x1F40; 0xDD01; 0x1DC0; 0x1C80; 0xDC41;
    0x1400; 0xD4C1; 0xD581; 0x1540; 0xD701; 0x17C0; 0x1680; 0xD641;
    0xD201; 0x12C0; 0x1380; 0xD341; 0x1100; 0xD1C1; 0xD081; 0x1040;
    0xF001; 0x30C0; 0x3180; 0xF141; 0x3300; 0xF3C1; 0xF281; 0x3240;
    0x3600; 0xF6C1; 0xF781; 0x3740; 0xF501; 0x35C0; 0x3480; 0xF441;
    0x3C00; 0xFCC1; 0xFD81; 0x3D40; 0xFF01; 0x3FC0; 0x3E80; 0xFE41;
    0xFA01; 0x3AC0; 0x3B80; 0xFB41; 0x3900; 0xF9C1; 0xF881; 0x3840;
    0x2800; 0xE8C1; 0xE981; 0x2940; 0xEB01; 0x2BC0; 0x2A80; 0xEA41;
    0xEE01; 0x2EC0; 0x2F80; 0xEF41; 0x2D00; 0xEDC1; 0xEC81; 0x2C40;
    0xE401; 0x24C0; 0x2580; 0xE541; 0x2700; 0xE7C1; 0xE681; 0x2640;
    0x2200; 0xE2C1; 0xE381; 0x2340; 0xE101; 0x21C0; 0x2080; 0xE041;
    0xA001; 0x60C0; 0x6180; 0xA141; 0x6300; 0xA3C1; 0xA281; 0x6240;
    0x6600; 0xA6C1; 0xA781; 0x6740; 0xA501; 0x65C0; 0x6480; 0xA441;
    0x6C00; 0xACC1; 0xAD81; 0x6D40; 0xAF01; 0x6FC0; 0x6E80; 0xAE41;
    0xAA01; 0x6AC0; 0x6B80; 0xAB41; 0x6900; 0xA9C1; 0xA881; 0x6840;
    0x7800; 0xB8C1; 0xB981; 0x7940; 0xBB01; 0x7BC0; 0x7A80; 0xBA41;
    0xBE01; 0x7EC0; 0x7F80; 0xBF41; 0x7D00; 0xBDC1; 0xBC81; 0x7C40;
    0xB401; 0x74C0; 0x7580; 0xB541; 0x7700; 0xB7C1; 0xB681; 0x7640;
    0x7200; 0xB2C1; 0xB381; 0x7340; 0xB101; 0x71C0; 0x7080; 0xB041;
    0x5000; 0x90C1; 0x9181; 0x5140; 0x9301; 0x53C0; 0x5280; 0x9241;
    0x9601; 0x56C0; 0x5780; 0x9741; 0x5500; 0x95C1; 0x9481; 0x5440;
    0x9C01; 0x5CC0; 0x5D80; 0x9D41; 0x5F00; 0x9FC1; 0x9E81; 0x5E40;
    0x5A00; 0x9AC1; 0x9B81; 0x5B40; 0x9901; 0x59C0; 0x5880; 0x9841;
    0x8801; 0x48C0; 0x4980; 0x8941; 0x4B00; 0x8BC1; 0x8A81; 0x4A40;
    0x4E00; 0x8EC1; 0x8F81; 0x4F40; 0x8D01; 0x4DC0; 0x4C80; 0x8C41;
    0x4400; 0x84C1; 0x8581; 0x4540; 0x8701; 0x47C0; 0x4680; 0x8641;
    0x8201; 0x42C0; 0x4380; 0x8341; 0x4100; 0x81C1; 0x8081; 0x4040
  ].

(** Body of the [for] loop, line 68:
    [crc = (crc >> 8) ^ table[(crc ^ byte) & 0xFF]]. *)
Definition crc_step (crc : Z) (byte : byte) : result Z :=
  t <- tuple_getitem table (Z.land (Z.lxor crc (int_of_byte byte)) 0xFF) ;;
  Ok (Z.lxor (Z.shiftr crc 8) t).

(** [for byte in data: ...] (lines 67-68), started from accumulator [crc];
    an exception raised by the body leaves the loop. *)
Fixpoint crc_loop (crc : Z) (data : list byte) : result Z :=
  match data with
  | [] => Ok crc
  | byte :: rest =>
      crc' <- crc_step crc byte ;;
      crc_loop crc' rest
  end.

(** Lines 66-69. *)
Definition crc16_pure_python (data : list byte) : result (list byte) :=
  crc <- crc_loop 0xFFFF data ;;
  bytes_of_ints [Z.land crc 0xFF; Z.shiftr crc 8].

(** ** The two strategies, worded after the specification (sections 4.1, 4.2) *)

Module Reference.

(** One of the eight iterations of the bitwise strategy: if the low bit
    of the accumulator is set, shift right and XOR with 0xA001, else
    shift right. *)
Definition shift_step (acc : Z) : Z :=
  if Z.testbit acc 0
  then Z.lxor (Z.shiftr acc 1) 0xA001
  else Z.shiftr acc 1.

Fixpoint repeat_step (n : nat) (acc : Z) : Z :=
  match n with
  | O => acc
  | S n' => repeat_step n' (shift_step acc)
  end.

(** Per byte: [accumulator ^= b], then eight iterations. *)
Definition bitwise_update (acc : Z) (b : byte) : Z :=
  repeat_step 8 (Z.lxor acc (int_of_byte b)).

(** The accumulator the bitwise strategy reaches from [seed]. *)
Definition bitwise_state (seed : Z) (data : list byte) : Z :=
  fold_left bitwise_update data seed.

(** Output encoding shared by both strategies: low byte, then high byte. *)
Definition encode (acc : Z) : result (list byte) :=
  bytes_of_ints [Z.land acc 0xFF; Z.shiftr acc 8].

(** BitwiseStrategy: seed 0xFFFF, same output contract as the table
    strategy. *)
Definition BitwiseStrategy (data : list byte) : result (list byte) :=
  encode (bitwise_state 0xFFFF data).

(** CrcTable as a mapping from an index to its entry. *)
Definition table_entry (index : Z) : Z := nth (Z.to_nat index) table 0.

(** Per byte of the table strategy: [index = (accumulator XOR b) & 0xFF];
    [accumulator = (accumulator >> 8) XOR table[index]]. *)
Definition table_update (acc : Z) (b : byte) : Z :=
  let index := Z.land (Z.lxor acc (int_of_byte b)) 0xFF in
  Z.lxor (Z.shiftr acc 8) (table_entry index).

(** The accumulator of the table strategy after all bytes, from 0xFFFF. *)
Definition TableStrategy_state (data : list byte) : Z :=
  fold_left table_update data 0xFFFF.

End Reference.

Import Reference.

(** Decidable checks run over the whole table: entry [i] is the
    eight-step reduction of [i]; an entry fits in 16 bits. *)
Definition entry_reduced (i : nat) : bool :=
  nth i table 0 =? repeat_step 8 (Z.of_nat i).

Definition entry_16bit (t : Z) : bool := (0 <=? t) && (t <? 2 ^ 16).

(** The read-holding-registers request frame used by [main] (line 132). *)
Definition test_data : list byte := [x01; x03; x00; x00; x00; x06].

(** The same loop and result construction when [data] is any iterable of
    Python integers (a list, say) rather than a [bytes] object: nothing in
    lines 66-69 looks at the type of [data]. *)
Definition crc_step_int (crc : Z) (x : Z) : result Z :=
  t <- tuple_getitem table (Z.land (Z.lxor crc x) 0xFF) ;;
  Ok (Z.lxor (Z.shiftr crc 8) t).

Fixpoint crc_loop_int (crc : Z) (data : list Z) : result Z :=
  match data with
  | [] => Ok crc
  | x :: rest =>
      crc' <- crc_step_int crc x ;;
      crc_loop_int crc' rest
  end.

Definition crc16_pure_python_ints (data : list Z) : result (list byte) :=
  crc <- crc_loop_int 0xFFFF data ;;
  bytes_of_ints [Z.land crc 0xFF; Z.shiftr crc 8].

(** The byte holding the low eight bits of an integer. *)
Definition low8 (x : Z) : byte :=
  match Byte.of_N (Z.to_N (x mod 256)) with
  | Some b => b
  | None => x00
  end.

(** ** The test buffers built by [main] (lines 161-167) *)

(** [range(n)]. *)
Definition py_range (n : Z) : list Z := map Z.of_nat (seq 0 (Z.to_nat n)).

(** The largest index-sized integer, [sys.maxsize], of a 64-bit CPython. *)
Definition PY_SSIZE_T_MAX : Z := 2 ^ 63 - 1.

(** [b * k] on a [bytes] object.  The count must fit an index-sized
    integer and so must the length of the result, else [OverflowError];
    otherwise the result is [k] copies of [b], none when [k <= 0].
    Running out of memory is not modelled. *)
Definition bytes_mul (b : list byte) (k : Z) : result (list byte) :=
  if (k <? - PY_SSIZE_T_MAX - 1) || (PY_SSIZE_T_MAX <? k)
  then Raise OverflowError
  else if (0 <? k) && (PY_SSIZE_T_MAX / k <? Z.of_nat (length b))
  then Raise OverflowError
  else Ok (concat (repeat b (Z.to_nat k))).

(** [b[:n]]: a negative [n] counts from the end; out-of-range bounds are
    clamped. *)
Definition slice_to (b : list byte) (n : Z) : list byte :=
  if n <? 0
  then firstn (Z.to_nat (Z.of_nat (length b) + n)) b
  else firstn (Z.to_nat n) b.

(** Lines 163-164:
    [data = bytes(range(size % 256)) * (size // 256 + 1)];
    [data = data[:size]]. *)
Definition bench_data (size : Z) : result (list byte) :=
  chunk <- bytes_of_ints (py_range (size mod 256)) ;;
  data <- bytes_mul chunk (size / 256 + 1) ;;
  Ok (slice_to data size).

(** Line 167: [iterations = max(100, 10000 // (size + 1))]; [None] stands
    for the [ZeroDivisionError] of [//]. *)
Definition bench_iterations (size : Z) : option Z :=
  if size + 1 =? 0
  then None
  else Some (Z.max 100 (10000 / (size + 1))).

(** Boolean test that a list of integers has no repeated element. *)
Fixpoint nodupb (l : list Z) : bool :=
  match l with
  | [] => true
  | x :: rest => negb (existsb (Z.eqb x) rest) && nodupb rest
  end.

(** The high byte of every table entry, in table order. *)
Definition table_high_bytes : list Z := map (fun t => Z.shiftr t 8) table.

(** ** A call of the routine on an explicit interpreter state

    What a call can see and change is made explicit: the namespace of the
    module (its global variables) and the frame of the call (the local
    variables of the function).  A function body is any function on that
    state, so a body that reads or writes a global, and so carries
    something over from one call to the next, is expressible. *)

Module Machine.

(** The Python values the routine handles. *)
Inductive value : Type :=
| VInt (z : Z)
| VTuple (t : list Z)
| VBytes (b : list byte).

(** The local variables of [crc16_pure_python]: its parameter and the
    names its body assigns. *)
Inductive local : Set :=
| L_data
| L_table
| L_crc
| L_byte.

(** A frame: one slot per local variable, empty until assigned. *)
Record frame : Type := mk_frame {
  f_data : option value;
  f_table : option value;
  f_crc : option value;
  f_byte : option value
}.

(** The module namespace. *)
Definition globals : Type := String.string -> option value.

Record state : Type := mk_state {
  st_globals : globals;
  st_frame : frame
}.

Inductive fault : Type :=
| PyExn (e : exn)
| UnboundLocalError (x : local)
| TypeError.

(** A computation: an outcome and the state it leaves. *)
Definition M (A : Type) : Type := state -> (A + fault) * state.

Definition ret {A : Type} (a : A) : M A := fun st => (inl a, st).

Definition fail {A : Type} (f : fault) : M A := fun st => (inr f, st).

Definition bindM {A B : Type} (m : M A) (k : A -> M B) : M B :=
  fun st =>
    match m st with
    | (inl a, st') => k a st'
    | (inr f, st') => (inr f, st')
    end.

Definition outcome_of {A : Type} (r : result A) : A + fault :=
  match r with
  | Ok a => inl a
  | Raise e => inr (PyExn e)
  end.

(** An operation of the runtime that does not touch the state. *)
Definition lift {A : Type} (r : result A) : M A :=
  fun st => (outcome_of r, st).

Definition get_local (x : local) (fr : frame) : option value :=
  match x with
  | L_data => f_data fr
  | L_table => f_table fr
  | L_crc => f_crc fr
  | L_byte => f_byte fr
  end.

Definition set_local (x : local) (v : value) (fr : frame) : frame :=
  match x with
  | L_data => mk_frame (Some v) (f_table fr) (f_crc fr) (f_byte fr)
  | L_table => mk_frame (f_data fr) (Some v) (f_crc fr) (f_byte fr)
  | L_crc => mk_frame (f_data fr) (f_table fr) (Some v) (f_byte fr)
  | L_byte => mk_frame (f_data fr) (f_table fr) (f_crc fr) (Some v)
  end.

(** Reading a local variable; one never assigned raises. *)
Definition load_fast (x : local) : M value :=
  fun st =>
    match get_local x (st_frame st) with
    | Some v => (inl v, st)
    | None => (inr (UnboundLocalError x), st)
    end.

(** Assigning a local variable. *)
Definition store_fast (x : local) (v : value) : M unit :=
  fun st => (inl tt, mk_state (st_globals st) (set_local x v (st_frame st))).

Definition as_int (v : value) : M Z :=
  match v with
  | VInt z => ret z
  | _ => fail TypeError
  end.

Definition as_tuple (v : value) : M (list Z) :=
  match v with
  | VTuple t => ret t
  | _ => fail TypeError
  end.

(** The items a [for] loop draws from a value; an integer is not
    iterable. *)
Definition iter_items (v : value) : M (list Z) :=
  match v with
  | VBytes b => ret (map int_of_byte b)
  | VTuple t => ret t
  | VInt _ => fail TypeError
  end.

Fixpoint for_each (items : list Z) (body : Z -> M unit) : M unit :=
  match items with
  | [] => ret tt
  | item :: rest => bindM (body item) (fun _ => for_each rest body)
  end.

End Machine.

Import Machine.

Notation "x <~ m ;; k" := (bindM m (fun x => k))
  (at level 61, m at next level, right associativity).

Notation "m ;;; k" := (bindM m (fun _ => k))
  (at level 61, right associativity).

(** Line 68 on the frame: the target [crc] is assigned from the locals
    [crc], [table] and [byte]. *)
Definition loop_body (item : Z) : M unit :=
  store_fast L_byte (VInt item) ;;;
  crc_hi <~ bindM (load_fast L_crc) as_int ;;
  tbl <~ bindM (load_fast L_table) as_tuple ;;
  crc_lo <~ bindM (load_fast L_crc) as_int ;;
  byte <~ bindM (load_fast L_byte) as_int ;;
  entry <~ lift (tuple_getitem tbl (Z.land (Z.lxor crc_lo byte) 0xFF)) ;;
  store_fast L_crc (VInt (Z.lxor (Z.shiftr crc_hi 8) entry)).

(** Lines 31-69 on the frame. *)
Definition crc16_body : M (list byte) :=
  store_fast L_table (VTuple table) ;;;
  store_fast L_crc (VInt 0xFFFF) ;;;
  data <~ load_fast L_data ;;
  items <~ iter_items data ;;
  for_each items loop_body ;;;
  crc_lo <~ bindM (load_fast L_crc) as_int ;;
  crc_hi <~ bindM (load_fast L_crc) as_int ;;
  lift (bytes_of_ints [Z.land crc_lo 0xFF; Z.shiftr crc_hi 8]).

(** The frame a call starts from: the parameter bound, nothing else. *)
Definition new_frame (arg : value) : frame :=
  mk_frame (Some arg) None None None.

(** A call from the module state [g]: the body runs on a new frame, the
    frame is dropped on return, and the module state it leaves is what a
    later call starts from. *)
Definition call_crc16 (g : globals) (arg : value)
  : (list byte + fault) * globals :=
  let (out, st) := crc16_body (mk_state g (new_frame arg)) in
  (out, st_globals st).

(** ** Bit-level facts *)

Section BitFacts.

Lemma int_of_byte_range (b : byte) : 0 <= int_of_byte b < 256.
Proof.
  unfold int_of_byte.
  pose proof (Byte.to_N_bounded b) as Hb.
  lia.
Qed.

Lemma land_255_range (x : Z) : 0 <= Z.land x 255 < 256.
Proof.
  change 255 with (Z.ones 8).
  rewrite Z.land_ones by lia.
  apply Z.mod_pos_bound; lia.
Qed.

Lemma land_lxor_distr (a b c : Z) :
  Z.land (Z.lxor a b) c = Z.lxor (Z.land a c) (Z.land b c).
Proof.
  apply Z.bits_inj'; intros n _.
  rewrite !Z.lxor_spec, !Z.land_spec, Z.lxor_spec.
  destruct (Z.testbit a n), (Z.testbit b n), (Z.testbit c n); reflexivity.
Qed.

Lemma lxor_below_pow2 (n a b : Z) :
  0 <= n -> 0 <= a < 2 ^ n -> 0 <= b < 2 ^ n -> 0 <= Z.lxor a b < 2 ^ n.
Proof.
  intros Hn Ha Hb.
  assert (Hm : Z.lxor a b = Z.lxor a b mod 2 ^ n).
  { rewrite <- Z.land_ones by assumption.
    rewrite land_lxor_distr, !Z.land_ones by assumption.
    rewrite !Z.mod_small by assumption.
    reflexivity. }
  rewrite Hm.
  apply Z.mod_pos_bound, Z.pow_pos_nonneg; lia.
Qed.

Lemma shiftr8_range (x : Z) : 0 <= x <= 0xFFFF -> 0 <= Z.shiftr x 8 <= 255.
Proof.
  intros Hx.
  rewrite Z.shiftr_div_pow2 by lia.
  change (2 ^ 8) with 256.
  split.
  - apply Z.div_pos; lia.
  - enough (x / 256 < 256) by lia.
    apply Z.div_lt_upper_bound; lia.
Qed.

(** A byte does not reach the high part of the accumulator. *)
Lemma shiftr8_lxor_byte (crc : Z) (b : byte) :
  Z.shiftr (Z.lxor crc (int_of_byte b)) 8 = Z.shiftr crc 8.
Proof.
  rewrite Z.shiftr_lxor.
  replace (Z.shiftr (int_of_byte b) 8) with 0.
  - apply Z.lxor_0_r.
  - rewrite Z.shiftr_div_pow2 by lia.
    symmetry; apply Z.div_small.
    change (2 ^ 8) with 256.
    apply int_of_byte_range.
Qed.

(** Low eight bits and the rest, recombined. *)
Lemma split_low8 (x : Z) :
  x = Z.lxor (Z.land x 255) (Z.shiftl (Z.shiftr x 8) 8).
Proof.
  apply Z.bits_inj'; intros n Hn.
  change 255 with (Z.ones 8).
  rewrite Z.lxor_spec, Z.land_spec, Z.testbit_ones_nonneg by lia.
  destruct (Z.ltb_spec n 8) as [Hlt | Hge].
  - rewrite Z.shiftl_spec_low by assumption.
    rewrite andb_true_r, xorb_false_r; reflexivity.
  - rewrite Z.shiftl_spec, Z.shiftr_spec by lia.
    rewrite andb_false_r, xorb_false_l.
    f_equal; lia.
Qed.

End BitFacts.

(** ** The bitwise reduction is linear over XOR *)

Section Reduction.

Lemma lxor_swap_inner (a b c d : Z) :
  Z.lxor (Z.lxor a b) (Z.lxor c d) = Z.lxor (Z.lxor a c) (Z.lxor b d).
Proof.
  rewrite !Z.lxor_assoc; f_equal.
  rewrite <- !Z.lxor_assoc; f_equal.
  apply Z.lxor_comm.
Qed.

Lemma shift_step_lxor (x y : Z) :
  shift_step (Z.lxor x y) = Z.lxor (shift_step x) (shift_step y).
Proof.
  unfold shift_step.
  rewrite Z.lxor_spec, Z.shiftr_lxor.
  generalize (Z.shiftr x 1) (Z.shiftr y 1) 0xA001; intros sx sy poly.
  destruct (Z.testbit x 0), (Z.testbit y 0); cbn [xorb].
  - rewrite lxor_swap_inner, Z.lxor_nilpotent, Z.lxor_0_r; reflexivity.
  - rewrite !Z.lxor_assoc; f_equal; apply Z.lxor_comm.
  - rewrite Z.lxor_assoc; reflexivity.
  - reflexivity.
Qed.

Lemma repeat_step_lxor (n : nat) :
  forall x y,
    repeat_step n (Z.lxor x y) = Z.lxor (repeat_step n x) (repeat_step n y).
Proof.
  induction n as [| n IH]; intros x y; cbn [repeat_step].
  - reflexivity.
  - rewrite shift_step_lxor; apply IH.
Qed.

(** With the low bits clear the polynomial is never folded in. *)
Lemma repeat_step_shiftl (n : nat) (h : Z) :
  repeat_step n (Z.shiftl h (Z.of_nat n)) = h.
Proof.
  induction n as [| n IH]; cbn [repeat_step].
  - apply Z.shiftl_0_r.
  - unfold shift_step.
    rewrite Z.shiftl_spec_low by lia.
    rewrite Z.shiftr_shiftl_l by lia.
    replace (Z.of_nat (S n) - 1) with (Z.of_nat n) by lia.
    exact IH.
Qed.

Lemma repeat8_split (x : Z) :
  repeat_step 8 x =
  Z.lxor (Z.shiftr x 8) (repeat_step 8 (Z.land x 255)).
Proof.
  rewrite (split_low8 x) at 1.
  rewrite repeat_step_lxor.
  change 8 with (Z.of_nat 8) at 3.
  rewrite repeat_step_shiftl.
  apply Z.lxor_comm.
Qed.

End Reduction.

(** ** The embedded table *)

Section Table.

Lemma table_length : length table = 256%nat.
Proof. reflexivity. Qed.

Lemma table_entries_reduced : forallb entry_reduced (seq 0 256) = true.
Proof. vm_compute; reflexivity. Qed.

Lemma table_entry_reduce (i : Z) :
  0 <= i < 256 -> table_entry i = repeat_step 8 i.
Proof.
  intros Hi.
  pose proof table_entries_reduced as Hall.
  rewrite forallb_forall in Hall.
  specialize (Hall (Z.to_nat i)).
  unfold entry_reduced in Hall.
  rewrite Z2Nat.id in Hall by lia.
  apply Z.eqb_eq, Hall, in_seq; lia.
Qed.

Lemma table_entries_16bit : Forall (fun t => 0 <= t < 2 ^ 16) table.
Proof.
  apply Forall_forall; intros t Hin.
  assert (Hall : forallb entry_16bit table = true) by (vm_compute; reflexivity).
  rewrite forallb_forall in Hall.
  specialize (Hall t Hin).
  unfold entry_16bit in Hall.
  apply andb_true_iff in Hall as [Hlo Hhi].
  apply Z.leb_le in Hlo; apply Z.ltb_lt in Hhi.
  split; assumption.
Qed.

Lemma table_entry_range (i : Z) :
  0 <= i < 256 -> 0 <= table_entry i < 2 ^ 16.
Proof.
  intros Hi.
  pose proof table_entries_16bit as Hall.
  rewrite Forall_forall in Hall.
  apply Hall.
  unfold table_entry.
  apply nth_In.
  rewrite table_length; lia.
Qed.

(** Indexing the tuple inside its bounds never raises. *)
Lemma tuple_getitem_table (i : Z) :
  0 <= i < 256 -> tuple_getitem table i = Ok (table_entry i).
Proof.
  intros Hi.
  unfold tuple_getitem, table_entry.
  rewrite table_length.
  change (Z.of_nat 256) with 256.
  destruct (Z.ltb_spec i 0) as [Hneg | _]; [lia |].
  destruct (Z.leb_spec 0 i) as [_ | Hneg]; [| lia].
  destruct (Z.ltb_spec i 256) as [_ | Hbig]; [| lia].
  cbn [andb].
  rewrite (nth_error_nth' table 0) by (rewrite table_length; lia).
  reflexivity.
Qed.

End Table.

(** ** The loop of the routine against the two worded strategies *)

Section Loop.

Lemma crc_step_table_update (crc : Z) (b : byte) :
  crc_step crc b = Ok (table_update crc b).
Proof.
  unfold crc_step, table_update.
  rewrite tuple_getitem_table by apply land_255_range.
  reflexivity.
Qed.

Lemma table_update_bitwise (acc : Z) (b : byte) :
  table_update acc b = bitwise_update acc b.
Proof.
  unfold table_update, bitwise_update.
  rewrite repeat8_split, shiftr8_lxor_byte.
  rewrite table_entry_reduce by apply land_255_range.
  reflexivity.
Qed.

Lemma crc_loop_fold (data : list byte) :
  forall crc, crc_loop crc data = Ok (fold_left table_update data crc).
Proof.
  induction data as [| b rest IH]; intros crc; cbn [crc_loop fold_left].
  - reflexivity.
  - rewrite crc_step_table_update; cbn [bind].
    apply IH.
Qed.

Lemma fold_table_bitwise (data : list byte) :
  forall acc, fold_left table_update data acc = bitwise_state acc data.
Proof.
  unfold bitwise_state.
  induction data as [| b rest IH]; intros acc; cbn [fold_left].
  - reflexivity.
  - rewrite table_update_bitwise; apply IH.
Qed.

Lemma table_update_range (acc : Z) (b : byte) :
  0 <= acc <= 0xFFFF -> 0 <= table_update acc b <= 0xFFFF.
Proof.
  intros Hacc.
  unfold table_update.
  pose proof (shiftr8_range acc Hacc) as Hhi.
  pose proof (table_entry_range _ (land_255_range (Z.lxor acc (int_of_byte b)))) as Ht.
  cbv zeta.
  enough (0 <= Z.lxor (Z.shiftr acc 8)
                 (table_entry (Z.land (Z.lxor acc (int_of_byte b)) 255)) < 2 ^ 16)
    by lia.
  apply lxor_below_pow2; lia.
Qed.

Lemma fold_table_range (data : list byte) :
  forall acc,
    0 <= acc <= 0xFFFF -> 0 <= fold_left table_update data acc <= 0xFFFF.
Proof.
  induction data as [| b rest IH]; intros acc Hacc; cbn [fold_left].
  - exact Hacc.
  - apply IH, table_update_range, Hacc.
Qed.

Lemma crc_loop_app (data1 data2 : list byte) :
  forall crc,
    crc_loop crc (data1 ++ data2) =
    (s <- crc_loop crc data1 ;; crc_loop s data2).
Proof.
  induction data1 as [| b rest IH]; intros crc; cbn [app crc_loop].
  - reflexivity.
  - destruct (crc_step crc b) as [crc' | e]; cbn [bind].
    + apply IH.
    + reflexivity.
Qed.

(** Building a [bytes] element from an in-range integer never raises. *)
Lemma byte_of_int_ok (x : Z) :
  0 <= x <= 255 -> exists b, byte_of_int x = Ok b /\ int_of_byte b = x.
Proof.
  intros Hx.
  unfold byte_of_int.
  destruct (Z.leb_spec 0 x) as [_ | Hneg]; [| lia].
  destruct (Z.ltb_spec x 256) as [_ | Hbig]; [| lia].
  cbn [andb].
  destruct (Byte.of_N (Z.to_N x)) as [b |] eqn:Hof.
  - exists b; split; [reflexivity |].
    unfold int_of_byte.
    apply Byte.to_of_N in Hof; rewrite Hof; lia.
  - apply Byte.of_N_None_iff in Hof; lia.
Qed.

Lemma encode_ok (acc : Z) :
  0 <= acc <= 0xFFFF ->
  exists lo hi,
    encode acc = Ok [lo; hi] /\
    int_of_byte lo = Z.land acc 0xFF /\
    int_of_byte hi = Z.shiftr acc 8.
Proof.
  intros Hacc.
  destruct (byte_of_int_ok (Z.land acc 0xFF)) as (lo & Hlo & Hlo').
  { pose proof (land_255_range acc); lia. }
  destruct (byte_of_int_ok (Z.shiftr acc 8)) as (hi & Hhi & Hhi').
  { apply shiftr8_range, Hacc. }
  exists lo, hi.
  unfold encode; cbn [bytes_of_ints].
  rewrite Hlo, Hhi; cbn [bind].
  auto.
Qed.

End Loop.

(** ** Properties of [crc16_pure_python] *)

(** C1: for every byte sequence, of any length, the table-driven loop ends
    on the accumulator that the bitwise reference strategy reaches from the
    seed 0xFFFF, and [crc16_pure_python] returns the same result as the
    bitwise strategy. *)
Theorem table_matches_bitwise (data : list byte) :
  crc_loop 0xFFFF data = Ok (bitwise_state 0xFFFF data) /\
  crc16_pure_python data = BitwiseStrategy data.
Proof.
  assert (Hloop : crc_loop 0xFFFF data = Ok (bitwise_state 0xFFFF data)).
  { rewrite crc_loop_fold, fold_table_bitwise; reflexivity. }
  split; [exact Hloop |].
  unfold crc16_pure_python, BitwiseStrategy, encode.
  rewrite Hloop; reflexivity.
Qed.

(** C2: [crc16_pure_python] runs the table-driven algorithm as specified:
    starting from 0xFFFF, each byte [b] in order turns the accumulator into
    [(accumulator >> 8) XOR table[(accumulator XOR b) & 0xFF]]; the loop
    ends on that accumulator and the result is its encoding. *)
Theorem crc16_implements_table_strategy (data : list byte) :
  crc_loop 0xFFFF data = Ok (TableStrategy_state data) /\
  crc16_pure_python data = encode (TableStrategy_state data).
Proof.
  assert (Hloop : crc_loop 0xFFFF data = Ok (TableStrategy_state data))
    by apply crc_loop_fold.
  split; [exact Hloop |].
  unfold crc16_pure_python, encode.
  rewrite Hloop; reflexivity.
Qed.

(** C3: the table has 256 entries, and the entry at every byte value is
    what the bitwise reduction gives on the one-byte buffer holding that
    value when the accumulator is seeded with 0. *)
Theorem table_entries_bitwise_seed0 :
  length table = 256%nat /\
  forall b : byte,
    tuple_getitem table (int_of_byte b) = Ok (bitwise_state 0 [b]).
Proof.
  split; [apply table_length |].
  intros b.
  pose proof (int_of_byte_range b) as Hb.
  rewrite tuple_getitem_table by assumption.
  rewrite table_entry_reduce by assumption.
  unfold bitwise_state, bitwise_update; cbn [fold_left].
  rewrite Z.lxor_0_l; reflexivity.
Qed.

(** C4: on the frame 01 03 00 00 00 06 the routine returns the bytes
    C5 C8, which is also what the bitwise reference (polynomial 0xA001,
    seed 0xFFFF, low byte first) returns for that frame. *)
Theorem known_vector :
  crc16_pure_python test_data = Ok [xc5; xc8] /\
  BitwiseStrategy test_data = Ok [xc5; xc8].
Proof. split; vm_compute; reflexivity. Qed.

(** C5: on the empty byte sequence the routine returns the seed 0xFFFF in
    little-endian order, the bytes FF FF. *)
Theorem empty_input : crc16_pure_python [] = Ok [xff; xff].
Proof. vm_compute; reflexivity. Qed.

(** C6: for every input the result is exactly two bytes, the first the
    final accumulator [& 0xFF] and the second the final accumulator
    [>> 8]. *)
Theorem result_two_bytes_low_first (data : list byte) :
  exists crc lo hi,
    crc_loop 0xFFFF data = Ok crc /\
    crc16_pure_python data = Ok [lo; hi] /\
    int_of_byte lo = Z.land crc 0xFF /\
    int_of_byte hi = Z.shiftr crc 8.
Proof.
  pose proof (crc_loop_fold data 0xFFFF) as Hloop.
  destruct (encode_ok (fold_left table_update data 0xFFFF))
    as (lo & hi & Henc & Hlo & Hhi).
  { apply fold_table_range; lia. }
  exists (fold_left table_update data 0xFFFF), lo, hi.
  repeat split; try assumption.
  unfold crc16_pure_python.
  rewrite Hloop; exact Henc.
Qed.

(** C7: the routine never raises: whatever the accumulator and the byte,
    the table index is in range; and for every input the loop finishes,
    the two integers handed to [bytes] lie in 0..255, and a result is
    returned. *)
Theorem crc16_total (data : list byte) :
  (forall (crc : Z) (b : byte),
      exists t,
        tuple_getitem table (Z.land (Z.lxor crc (int_of_byte b)) 0xFF) = Ok t) /\
  exists crc out,
    crc_loop 0xFFFF data = Ok crc /\
    0 <= Z.land crc 0xFF <= 255 /\
    0 <= Z.shiftr crc 8 <= 255 /\
    crc16_pure_python data = Ok out.
Proof.
  split.
  - intros crc b.
    eexists; apply tuple_getitem_table, land_255_range.
  - pose proof (crc_loop_fold data 0xFFFF) as Hloop.
    assert (Hrange : 0 <= fold_left table_update data 0xFFFF <= 0xFFFF)
      by (apply fold_table_range; lia).
    destruct (encode_ok _ Hrange) as (lo & hi & Henc & _).
    exists (fold_left table_update data 0xFFFF), [lo; hi].
    split; [exact Hloop |].
    split; [pose proof (land_255_range (fold_left table_update data 0xFFFF)); lia |].
    split; [apply shiftr8_range, Hrange |].
    unfold crc16_pure_python.
    rewrite Hloop; exact Henc.
Qed.

(** C9: the accumulator after [data ++ [b]] is the single-byte update
    with [b] applied to the accumulator left after [data]. *)
Theorem crc_state_incremental (data : list byte) (b : byte) :
  exists s,
    crc_loop 0xFFFF data = Ok s /\
    crc_loop 0xFFFF (data ++ [b]) = crc_step s b.
Proof.
  exists (fold_left table_update data 0xFFFF).
  split; [apply crc_loop_fold |].
  rewrite crc_loop_app, crc_loop_fold; cbn [bind crc_loop].
  destruct (crc_step (fold_left table_update data 0xFFFF) b); reflexivity.
Qed.

(** C10: every table entry is below 2^16, and after initialisation and
    after each byte (that is, on every prefix of the input) the
    accumulator lies in 0..0xFFFF, so its high byte lies in 0..255. *)
Theorem accumulator_16bit (data : list byte) (n : nat) :
  Forall (fun t => 0 <= t < 2 ^ 16) table /\
  exists crc,
    crc_loop 0xFFFF (firstn n data) = Ok crc /\
    0 <= crc <= 0xFFFF /\
    0 <= Z.shiftr crc 8 <= 255.
Proof.
  split; [apply table_entries_16bit |].
  assert (Hrange : 0 <= fold_left table_update (firstn n data) 0xFFFF <= 0xFFFF)
    by (apply fold_table_range; lia).
  exists (fold_left table_update (firstn n data) 0xFFFF).
  split; [apply crc_loop_fold |].
  split; [exact Hrange | apply shiftr8_range, Hrange].
Qed.

(** ** What the check value detects *)

Section Injectivity.

Lemma nodupb_sound (l : list Z) : nodupb l = true -> NoDup l.
Proof.
  induction l as [| x rest IH]; cbn [nodupb]; intros Hb.
  - constructor.
  - apply andb_true_iff in Hb as [Hx Hrest].
    constructor; [| apply IH, Hrest].
    intros Hin.
    apply negb_true_iff in Hx.
    assert (Hex : existsb (Z.eqb x) rest = true).
    { apply existsb_exists; exists x; split; [exact Hin | apply Z.eqb_refl]. }
    congruence.
Qed.

Lemma table_high_bytes_nodup : NoDup table_high_bytes.
Proof. apply nodupb_sound; vm_compute; reflexivity. Qed.

(** The high byte of an entry identifies its index. *)
Lemma table_high_inj (i j : Z) :
  0 <= i < 256 -> 0 <= j < 256 ->
  Z.shiftr (table_entry i) 8 = Z.shiftr (table_entry j) 8 -> i = j.
Proof.
  intros Hi Hj Heq.
  pose proof table_high_bytes_nodup as Hnd.
  rewrite (NoDup_nth table_high_bytes 0) in Hnd.
  assert (Hlen : length table_high_bytes = 256%nat).
  { unfold table_high_bytes; rewrite length_map; apply table_length. }
  assert (Hnth : forall k, nth k table_high_bytes 0 = Z.shiftr (nth k table 0) 8).
  { intros k; unfold table_high_bytes.
    exact (map_nth (fun t => Z.shiftr t 8) table 0 k). }
  specialize (Hnd (Z.to_nat i) (Z.to_nat j)).
  rewrite Hlen, !Hnth in Hnd.
  unfold table_entry in Heq.
  specialize (Hnd ltac:(lia) ltac:(lia) Heq).
  lia.
Qed.

Lemma lxor_cancel_r (a b c : Z) : Z.lxor a c = Z.lxor b c -> a = b.
Proof.
  intros Heq.
  apply (f_equal (fun z => Z.lxor z c)) in Heq.
  rewrite !Z.lxor_assoc, Z.lxor_nilpotent, !Z.lxor_0_r in Heq.
  exact Heq.
Qed.

Lemma lxor_cancel_l (a b c : Z) : Z.lxor c a = Z.lxor c b -> a = b.
Proof.
  rewrite (Z.lxor_comm c a), (Z.lxor_comm c b); apply lxor_cancel_r.
Qed.

Lemma int_of_byte_inj (b b' : byte) : int_of_byte b = int_of_byte b' -> b = b'.
Proof.
  unfold int_of_byte; intros Heq.
  apply N2Z.inj in Heq.
  pose proof (Byte.of_to_N b) as Hb.
  rewrite Heq, Byte.of_to_N in Hb.
  congruence.
Qed.

Lemma shiftr8_byte_range (x : Z) : 0 <= x <= 255 -> Z.shiftr x 8 = 0.
Proof.
  intros Hx.
  rewrite Z.shiftr_div_pow2 by lia.
  apply Z.div_small; change (2 ^ 8) with 256; lia.
Qed.

(** The high byte of the updated accumulator is the high byte of the
    entry that was looked up. *)
Lemma table_update_high (s : Z) (b : byte) :
  0 <= s <= 0xFFFF ->
  Z.shiftr (table_update s b) 8 =
  Z.shiftr (table_entry (Z.land (Z.lxor s (int_of_byte b)) 255)) 8.
Proof.
  intros Hs.
  unfold table_update; cbv zeta.
  rewrite Z.shiftr_lxor.
  rewrite (shiftr8_byte_range (Z.shiftr s 8)) by apply shiftr8_range, Hs.
  apply Z.lxor_0_l.
Qed.

(** Two updates that meet came from the same "accumulator XOR byte". *)
Lemma table_update_inj (s s' : Z) (b b' : byte) :
  0 <= s <= 0xFFFF -> 0 <= s' <= 0xFFFF ->
  table_update s b = table_update s' b' ->
  Z.lxor s (int_of_byte b) = Z.lxor s' (int_of_byte b').
Proof.
  intros Hs Hs' Heq.
  assert (Hidx : Z.land (Z.lxor s (int_of_byte b)) 255 =
                 Z.land (Z.lxor s' (int_of_byte b')) 255).
  { apply table_high_inj; try apply land_255_range.
    rewrite <- !table_update_high by assumption.
    rewrite Heq; reflexivity. }
  unfold table_update in Heq; cbv zeta in Heq.
  rewrite Hidx in Heq.
  apply lxor_cancel_r in Heq.
  rewrite (split_low8 (Z.lxor s (int_of_byte b))).
  rewrite (split_low8 (Z.lxor s' (int_of_byte b'))).
  rewrite !shiftr8_lxor_byte, Hidx, Heq.
  reflexivity.
Qed.

Lemma fold_table_inj (q : list byte) :
  forall s s',
    0 <= s <= 0xFFFF -> 0 <= s' <= 0xFFFF ->
    fold_left table_update q s = fold_left table_update q s' -> s = s'.
Proof.
  induction q as [| b rest IH]; intros s s' Hs Hs'; cbn [fold_left]; intros Heq.
  - exact Heq.
  - apply IH in Heq; try (apply table_update_range; assumption).
    apply table_update_inj in Heq; try assumption.
    apply lxor_cancel_r in Heq; exact Heq.
Qed.

(** Low byte and high byte, put back together. *)
Lemma low_high_decode (s : Z) : Z.land s 0xFF + 256 * Z.shiftr s 8 = s.
Proof.
  change 255 with (Z.ones 8).
  rewrite Z.land_ones, Z.shiftr_div_pow2 by lia.
  change (2 ^ 8) with 256.
  pose proof (Z.div_mod s 256); lia.
Qed.

Lemma encode_inj (s s' : Z) :
  0 <= s <= 0xFFFF -> 0 <= s' <= 0xFFFF -> encode s = encode s' -> s = s'.
Proof.
  intros Hs Hs' Heq.
  destruct (encode_ok s Hs) as (lo & hi & He & Hlo & Hhi).
  destruct (encode_ok s' Hs') as (lo' & hi' & He' & Hlo' & Hhi').
  rewrite He, He' in Heq.
  injection Heq as Hl Hh; subst lo' hi'.
  rewrite <- (low_high_decode s), <- (low_high_decode s').
  congruence.
Qed.

Lemma crc16_fold (data : list byte) :
  crc16_pure_python data = encode (fold_left table_update data 0xFFFF).
Proof.
  unfold crc16_pure_python, encode.
  rewrite crc_loop_fold; reflexivity.
Qed.

Lemma seed_range : 0 <= 0xFFFF <= 0xFFFF.
Proof. lia. Qed.

End Injectivity.

Ltac in_range :=
  repeat first
    [ exact seed_range
    | apply fold_table_range
    | apply table_update_range
    | assumption ].

Section Residue.

(** Feeding the accumulator's own low byte shifts the accumulator down. *)
Lemma table_update_cancel (s : Z) (b : byte) :
  int_of_byte b = Z.land s 255 -> table_update s b = Z.shiftr s 8.
Proof.
  intros Hb.
  unfold table_update; cbv zeta.
  rewrite Hb, land_lxor_distr.
  rewrite <- Z.land_assoc, Z.land_diag, Z.lxor_nilpotent.
  change (table_entry 0) with 0.
  apply Z.lxor_0_r.
Qed.

Lemma land_255_small (x : Z) : 0 <= x <= 255 -> Z.land x 255 = x.
Proof.
  intros Hx.
  change 255 with (Z.ones 8).
  rewrite Z.land_ones by lia.
  apply Z.mod_small; change (2 ^ 8) with 256; lia.
Qed.

Lemma residue_state (data : list byte) :
  exists lo hi,
    crc16_pure_python data = Ok [lo; hi] /\
    fold_left table_update (data ++ [lo; hi]) 0xFFFF = 0.
Proof.
  set (s := fold_left table_update data 0xFFFF).
  assert (Hs : 0 <= s <= 0xFFFF) by (unfold s; in_range).
  destruct (encode_ok s Hs) as (lo & hi & Henc & Hlo & Hhi).
  exists lo, hi.
  split; [rewrite crc16_fold; exact Henc |].
  rewrite fold_left_app; fold s; cbn [fold_left].
  rewrite (table_update_cancel s lo) by exact Hlo.
  pose proof (shiftr8_range s Hs) as Hhigh.
  rewrite table_update_cancel by (rewrite land_255_small; assumption).
  apply shiftr8_byte_range, Hhigh.
Qed.

Lemma zero_state_stays (n : nat) :
  fold_left table_update (repeat x00 n) 0 = 0.
Proof.
  induction n as [| n IH]; cbn [repeat fold_left].
  - reflexivity.
  - rewrite (table_update_cancel 0 x00) by reflexivity.
    exact IH.
Qed.

End Residue.

(** ** Further properties of [crc16_pure_python] *)

(** X1: a message followed by its own check bytes has check value 00 00:
    the routine returns some [c] on [data], and on [data ++ c] it returns
    the two zero bytes. *)
Theorem crc_residue_zero (data : list byte) :
  exists c,
    crc16_pure_python data = Ok c /\
    crc16_pure_python (data ++ c) = Ok [x00; x00].
Proof.
  destruct (residue_state data) as (lo & hi & Hc & Hzero).
  exists [lo; hi].
  split; [exact Hc |].
  rewrite crc16_fold, Hzero.
  vm_compute; reflexivity.
Qed.

(** X2: zero bytes appended after a message and its check bytes are not
    noticed: the check value stays 00 00 whatever their number. *)
Theorem zero_padding_after_frame (data : list byte) (n : nat) :
  exists c,
    crc16_pure_python data = Ok c /\
    crc16_pure_python (data ++ c ++ repeat x00 n) = Ok [x00; x00].
Proof.
  destruct (residue_state data) as (lo & hi & Hc & Hzero).
  exists [lo; hi].
  split; [exact Hc |].
  rewrite crc16_fold, app_assoc, fold_left_app, Hzero, zero_state_stays.
  vm_compute; reflexivity.
Qed.

(** X3: the loop can be resumed at any cut: the accumulator left by
    [data1] is a 16-bit value, and running the loop on [data2] from it
    gives the accumulator of [data1 ++ data2]. *)
Theorem crc_loop_resume (data1 data2 : list byte) :
  exists s,
    crc_loop 0xFFFF data1 = Ok s /\
    0 <= s <= 0xFFFF /\
    crc_loop 0xFFFF (data1 ++ data2) = crc_loop s data2.
Proof.
  exists (fold_left table_update data1 0xFFFF).
  split; [apply crc_loop_fold |].
  split; [in_range |].
  rewrite crc_loop_app, crc_loop_fold; reflexivity.
Qed.

(** X4: the two result bytes, read as a little-endian integer, are the
    final accumulator. *)
Theorem result_decodes_to_accumulator (data : list byte) :
  exists crc lo hi,
    crc_loop 0xFFFF data = Ok crc /\
    crc16_pure_python data = Ok [lo; hi] /\
    int_of_byte lo + 256 * int_of_byte hi = crc.
Proof.
  set (s := fold_left table_update data 0xFFFF).
  assert (Hs : 0 <= s <= 0xFFFF) by (unfold s; in_range).
  destruct (encode_ok s Hs) as (lo & hi & Henc & Hlo & Hhi).
  exists s, lo, hi.
  split; [apply crc_loop_fold |].
  split; [rewrite crc16_fold; exact Henc |].
  rewrite Hlo, Hhi; apply low_high_decode.
Qed.

(** X5: a common suffix neither creates nor hides a difference: two
    messages followed by the same bytes have equal check values exactly
    when the two messages have. *)
Theorem common_suffix_preserves (data1 data2 suffix : list byte) :
  crc16_pure_python (data1 ++ suffix) = crc16_pure_python (data2 ++ suffix) <->
  crc16_pure_python data1 = crc16_pure_python data2.
Proof.
  rewrite !crc16_fold, !fold_left_app.
  split; intros Heq.
  - apply encode_inj in Heq; [| in_range | in_range].
    apply fold_table_inj in Heq; [| in_range | in_range].
    rewrite Heq; reflexivity.
  - apply encode_inj in Heq; [| in_range | in_range].
    rewrite Heq; reflexivity.
Qed.

(** X6: replacing one byte of a message by a different byte always changes
    the check value. *)
Theorem single_byte_change_detected (prefix suffix : list byte) (b b' : byte) :
  b <> b' ->
  crc16_pure_python (prefix ++ b :: suffix) <>
  crc16_pure_python (prefix ++ b' :: suffix).
Proof.
  intros Hne Heq.
  rewrite !crc16_fold, !fold_left_app in Heq; cbn [fold_left] in Heq.
  apply encode_inj in Heq; [| in_range | in_range].
  apply fold_table_inj in Heq; [| in_range | in_range].
  apply table_update_inj in Heq; [| in_range | in_range].
  apply lxor_cancel_l, int_of_byte_inj in Heq.
  contradiction.
Qed.

Lemma single_byte_change_detected_witness :
  x03 <> x04 /\
  crc16_pure_python ([x01] ++ x03 :: [x00; x06]) <>
  crc16_pure_python ([x01] ++ x04 :: [x00; x06]).
Proof.
  split; [discriminate | apply single_byte_change_detected; discriminate].
Defined.

(** X7: replacing two adjacent bytes of a message by a different pair
    always changes the check value. *)
Theorem adjacent_pair_change_detected
  (prefix suffix : list byte) (a b a' b' : byte) :
  (a, b) <> (a', b') ->
  crc16_pure_python (prefix ++ a :: b :: suffix) <>
  crc16_pure_python (prefix ++ a' :: b' :: suffix).
Proof.
  intros Hne Heq.
  rewrite !crc16_fold, !fold_left_app in Heq; cbn [fold_left] in Heq.
  set (s := fold_left table_update prefix 0xFFFF) in Heq.
  assert (Hs : 0 <= s <= 0xFFFF) by (unfold s; in_range).
  apply encode_inj in Heq; [| in_range | in_range].
  apply fold_table_inj in Heq; [| in_range | in_range].
  apply table_update_inj in Heq; [| in_range | in_range].
  assert (Hfirst : table_update s a = table_update s a').
  { pose proof (f_equal (fun z => Z.shiftr z 8) Heq) as Hhigh.
    cbv beta in Hhigh.
    rewrite !shiftr8_lxor_byte, !table_update_high in Hhigh by assumption.
    apply table_high_inj in Hhigh; try apply land_255_range.
    unfold table_update; cbv zeta.
    rewrite Hhigh; reflexivity. }
  rewrite Hfirst in Heq.
  apply lxor_cancel_l, int_of_byte_inj in Heq.
  apply table_update_inj in Hfirst; [| assumption | assumption].
  apply lxor_cancel_l, int_of_byte_inj in Hfirst.
  apply Hne; congruence.
Qed.

Lemma adjacent_pair_change_detected_witness :
  (x00, x06) <> (x06, x00) /\
  crc16_pure_python ([x01; x03] ++ x00 :: x06 :: []) <>
  crc16_pure_python ([x01; x03] ++ x06 :: x00 :: []).
Proof.
  split; [discriminate | apply adjacent_pair_change_detected; discriminate].
Defined.

(** ** The routine on arbitrary Python integers *)

Section Ints.

Lemma int_of_low8 (x : Z) : int_of_byte (low8 x) = x mod 256.
Proof.
  pose proof (Z.mod_pos_bound x 256 ltac:(lia)) as Hm.
  unfold low8, int_of_byte.
  destruct (Byte.of_N (Z.to_N (x mod 256))) as [b |] eqn:Hof.
  - apply Byte.to_of_N in Hof; rewrite Hof; lia.
  - apply Byte.of_N_None_iff in Hof; lia.
Qed.

Lemma index_low8 (crc x : Z) :
  Z.land (Z.lxor crc x) 255 = Z.land (Z.lxor crc (int_of_byte (low8 x))) 255.
Proof.
  rewrite int_of_low8, !land_lxor_distr.
  f_equal.
  change 255 with (Z.ones 8).
  rewrite !Z.land_ones by lia.
  change (2 ^ 8) with 256.
  symmetry; apply Z.mod_mod; lia.
Qed.

Lemma crc_step_int_low8 (crc x : Z) :
  crc_step_int crc x = crc_step crc (low8 x).
Proof.
  unfold crc_step_int, crc_step.
  rewrite (index_low8 crc x); reflexivity.
Qed.

Lemma crc_loop_int_low8 (data : list Z) :
  forall crc, crc_loop_int crc data = crc_loop crc (map low8 data).
Proof.
  induction data as [| x rest IH]; intros crc; cbn [crc_loop_int crc_loop map].
  - reflexivity.
  - rewrite crc_step_int_low8.
    destruct (crc_step crc (low8 x)) as [crc' | e]; cbn [bind].
    + apply IH.
    + reflexivity.
Qed.

End Ints.

(** X8: given any list of Python integers, negative or above 255 included,
    the routine never raises, and it returns what it returns on the bytes
    holding the low eight bits of each element. *)
Theorem ints_only_low8_matter (data : list Z) :
  crc16_pure_python_ints data = crc16_pure_python (map low8 data) /\
  exists lo hi, crc16_pure_python_ints data = Ok [lo; hi].
Proof.
  assert (Heq : crc16_pure_python_ints data = crc16_pure_python (map low8 data)).
  { unfold crc16_pure_python_ints, crc16_pure_python.
    rewrite crc_loop_int_low8; reflexivity. }
  split; [exact Heq |].
  rewrite Heq, crc16_fold.
  destruct (encode_ok (fold_left table_update (map low8 data) 0xFFFF))
    as (lo & hi & Henc & _); [in_range |].
  exists lo, hi; exact Henc.
Qed.

(** ** The buffers and iteration counts of [main] *)

Section Bench.

Lemma bytes_of_ints_ok (xs : list Z) :
  Forall (fun x => 0 <= x <= 255) xs ->
  exists d, bytes_of_ints xs = Ok d /\ map int_of_byte d = xs.
Proof.
  induction 1 as [| x rest Hx _ IH]; cbn [bytes_of_ints].
  - exists []; split; reflexivity.
  - destruct (byte_of_int_ok x Hx) as (b & Hb & Hb').
    destruct IH as (d & Hd & Hd').
    exists (b :: d).
    rewrite Hb, Hd; cbn [bind map].
    rewrite Hb', Hd'; split; reflexivity.
Qed.

Lemma py_range_bytes (n : Z) :
  n <= 256 -> Forall (fun x => 0 <= x <= 255) (py_range n).
Proof.
  intros Hn.
  apply Forall_forall; intros x Hin.
  unfold py_range in Hin.
  apply in_map_iff in Hin as (k & Hk & Hin).
  apply in_seq in Hin; lia.
Qed.

Lemma py_range_length (n : Z) : length (py_range n) = Z.to_nat n.
Proof. unfold py_range; rewrite length_map, length_seq; reflexivity. Qed.

(** [bytes(range(n))] for [n <= 256]. *)
Lemma bytes_range_ok (n : Z) :
  n <= 256 ->
  exists d,
    bytes_of_ints (py_range n) = Ok d /\
    map int_of_byte d = py_range n /\
    length d = Z.to_nat n.
Proof.
  intros Hn.
  destruct (bytes_of_ints_ok _ (py_range_bytes n Hn)) as (d & Hd & Hmap).
  exists d; repeat split; try assumption.
  rewrite <- (length_map int_of_byte), Hmap.
  apply py_range_length.
Qed.

Lemma ssize_max_value : PY_SSIZE_T_MAX = 9223372036854775807.
Proof. reflexivity. Qed.

(** Within the index range, and with a result that is not too long,
    repetition does not raise. *)
Lemma bytes_mul_ok (b : list byte) (k : Z) :
  - PY_SSIZE_T_MAX - 1 <= k <= PY_SSIZE_T_MAX ->
  Z.of_nat (length b) * k <= PY_SSIZE_T_MAX ->
  bytes_mul b k = Ok (concat (repeat b (Z.to_nat k))).
Proof.
  intros Hk Hlen.
  unfold bytes_mul.
  destruct (Z.ltb_spec k (- PY_SSIZE_T_MAX - 1)) as [Hlow | _]; [lia |].
  destruct (Z.ltb_spec PY_SSIZE_T_MAX k) as [Hhigh | _]; [lia |].
  cbn [orb].
  destruct (Z.ltb_spec 0 k) as [Hpos | _]; [| reflexivity].
  destruct (Z.ltb_spec (PY_SSIZE_T_MAX / k) (Z.of_nat (length b)))
    as [Hlong | _]; [| reflexivity].
  assert (Z.of_nat (length b) <= PY_SSIZE_T_MAX / k)
    by (apply Z.div_le_lower_bound; lia).
  lia.
Qed.

Lemma concat_repeat_length (b : list byte) (n : nat) :
  length (concat (repeat b n)) = (n * length b)%nat.
Proof.
  induction n as [| n IH]; cbn [repeat concat].
  - reflexivity.
  - rewrite length_app, IH; lia.
Qed.

Lemma concat_repeat_nil (n : nat) : concat (repeat (@nil byte) n) = [].
Proof.
  induction n as [| n IH]; cbn [repeat concat app].
  - reflexivity.
  - exact IH.
Qed.

Lemma slice_to_nil (n : Z) : slice_to [] n = [].
Proof.
  unfold slice_to.
  destruct (n <? 0); apply firstn_nil.
Qed.

End Bench.

(** X10: for a size from 0 to 255 the test buffer is built without error
    and holds exactly the bytes 0, 1, ..., size-1. *)
Theorem bench_data_small (size : Z) :
  0 <= size < 256 ->
  exists d,
    bench_data size = Ok d /\
    map int_of_byte d = py_range size /\
    Z.of_nat (length d) = size.
Proof.
  intros Hsize.
  destruct (bytes_range_ok size ltac:(lia)) as (d & Hd & Hmap & Hlen).
  exists d.
  unfold bench_data.
  rewrite Z.mod_small, Z.div_small by lia.
  rewrite Hd; cbn [bind].
  change (0 + 1) with 1.
  rewrite bytes_mul_ok by (rewrite ?ssize_max_value; lia).
  change (Z.to_nat 1) with 1%nat; cbn [repeat concat bind].
  rewrite app_nil_r.
  unfold slice_to.
  destruct (Z.ltb_spec size 0) as [Hneg | _]; [lia |].
  rewrite firstn_all2 by lia.
  repeat split; [exact Hmap | lia].
Qed.

Lemma bench_data_small_witness :
  0 <= 6 < 256 /\
  exists d,
    bench_data 6 = Ok d /\
    map int_of_byte d = py_range 6 /\
    Z.of_nat (length d) = 6.
Proof.
  split; [lia | apply bench_data_small; lia].
Defined.

(** X11: for a size of 256 or more, and no larger than an index-sized
    integer, the test buffer is built without [OverflowError] but is
    shorter than the size asked for: it has
    (size mod 256) * (size div 256 + 1) bytes. *)
Theorem bench_data_large_is_short (size : Z) :
  256 <= size <= PY_SSIZE_T_MAX ->
  exists d,
    bench_data size = Ok d /\
    Z.of_nat (length d) = (size mod 256) * (size / 256 + 1) /\
    Z.of_nat (length d) < size.
Proof.
  intros Hsize.
  pose proof ssize_max_value as Hmax.
  pose proof (Z.mod_pos_bound size 256 ltac:(lia)) as Hr.
  pose proof (Z.div_mod size 256 ltac:(lia)) as Hdm.
  assert (Hq : 1 <= size / 256) by (apply Z.div_le_lower_bound; lia).
  destruct (bytes_range_ok (size mod 256) ltac:(lia)) as (d & Hd & _ & Hlen).
  assert (Hshort : (size mod 256) * (size / 256 + 1) < size) by nia.
  assert (Hd' : Z.of_nat (length d) = size mod 256) by lia.
  exists (slice_to (concat (repeat d (Z.to_nat (size / 256 + 1)))) size).
  unfold bench_data; rewrite Hd; cbn [bind].
  rewrite bytes_mul_ok by (rewrite ?Hd'; lia).
  cbn [bind].
  split; [reflexivity |].
  assert (Hmul : Z.of_nat (length (concat (repeat d (Z.to_nat (size / 256 + 1))))) =
                 (size mod 256) * (size / 256 + 1)).
  { rewrite concat_repeat_length; nia. }
  unfold slice_to.
  destruct (Z.ltb_spec size 0) as [Hneg | _]; [lia |].
  rewrite firstn_all2 by lia.
  split; [exact Hmul | lia].
Qed.

Lemma bench_data_large_is_short_witness :
  256 <= 300 <= PY_SSIZE_T_MAX /\
  exists d,
    bench_data 300 = Ok d /\
    Z.of_nat (length d) = (300 mod 256) * (300 / 256 + 1) /\
    Z.of_nat (length d) < 300.
Proof.
  split; [rewrite ssize_max_value; lia |].
  apply bench_data_large_is_short; rewrite ssize_max_value; lia.
Defined.

(** X12: for a size that is a multiple of 256 and within the index range
    (the rows 256, 512 and 1024 of [test_sizes] are) the test buffer is
    empty, so the value computed on it by the routine is the seed,
    FF FF. *)
Theorem bench_data_multiple_of_256_empty (size : Z) :
  size mod 256 = 0 ->
  - PY_SSIZE_T_MAX <= size <= PY_SSIZE_T_MAX ->
  bench_data size = Ok [] /\
  (d <- bench_data size ;; crc16_pure_python d) = Ok [xff; xff].
Proof.
  intros Hmod Hsize.
  assert (Hdata : bench_data size = Ok []).
  { pose proof ssize_max_value as Hmax.
    pose proof (Z.div_mod size 256 ltac:(lia)) as Hdm.
    unfold bench_data.
    rewrite Hmod.
    change (bytes_of_ints (py_range 0)) with (@Ok (list byte) []).
    cbn [bind].
    rewrite bytes_mul_ok by (cbn [length]; lia).
    cbn [bind].
    rewrite concat_repeat_nil, slice_to_nil; reflexivity. }
  split; [exact Hdata |].
  rewrite Hdata; vm_compute; reflexivity.
Qed.

Lemma bench_data_multiple_of_256_empty_witness :
  1024 mod 256 = 0 /\
  - PY_SSIZE_T_MAX <= 1024 <= PY_SSIZE_T_MAX /\
  bench_data 1024 = Ok [] /\
  (d <- bench_data 1024 ;; crc16_pure_python d) = Ok [xff; xff].
Proof.
  split; [reflexivity |].
  split; [rewrite ssize_max_value; lia |].
  apply bench_data_multiple_of_256_empty;
    [reflexivity | rewrite ssize_max_value; lia].
Defined.

(** X13: for a non-negative size the iteration count is computed without
    error, lies between 100 and 10000, and is exactly 100 from size 99
    on. *)
Theorem bench_iterations_bounds (size : Z) :
  0 <= size ->
  exists n,
    bench_iterations size = Some n /\
    100 <= n <= 10000 /\
    (99 <= size -> n = 100).
Proof.
  intros Hsize.
  exists (Z.max 100 (10000 / (size + 1))).
  unfold bench_iterations.
  destruct (Z.eqb_spec (size + 1) 0) as [Hz | _]; [lia |].
  split; [reflexivity |].
  assert (Hup : 10000 / (size + 1) <= 10000)
    by (apply Z.div_le_upper_bound; lia).
  split; [lia |].
  intros Hbig.
  assert (Hle : 10000 / (size + 1) <= 100)
    by (apply Z.div_le_upper_bound; lia).
  lia.
Qed.

Lemma bench_iterations_bounds_witness :
  0 <= 6 /\
  exists n,
    bench_iterations 6 = Some n /\
    100 <= n <= 10000 /\
    (99 <= 6 -> n = 100).
Proof.
  split; [lia | apply bench_iterations_bounds; lia].
Defined.

(** ** The call on the interpreter state *)

Section Call.

Ltac run_machine :=
  cbv [bindM store_fast load_fast get_local set_local
       st_frame st_globals f_data f_table f_crc f_byte as_int as_tuple
       iter_items ret fail lift new_frame].

(** One turn of the loop assigns [byte] and [crc] and nothing else. *)
Lemma loop_body_run (g : globals) (fr : frame) (c : Z) (b : byte) :
  f_table fr = Some (VTuple table) ->
  f_crc fr = Some (VInt c) ->
  loop_body (int_of_byte b) (mk_state g fr) =
  (inl tt,
   mk_state g (mk_frame (f_data fr) (f_table fr)
                        (Some (VInt (table_update c b)))
                        (Some (VInt (int_of_byte b))))).
Proof.
  destruct fr as [d t c0 b0]; cbn [f_table f_crc f_data]; intros -> ->.
  unfold loop_body; run_machine.
  rewrite tuple_getitem_table by apply land_255_range.
  reflexivity.
Qed.

Lemma for_each_run (g : globals) (bs : list byte) :
  forall (fr : frame) (c : Z),
    f_table fr = Some (VTuple table) ->
    f_crc fr = Some (VInt c) ->
    exists fr',
      for_each (map int_of_byte bs) loop_body (mk_state g fr) =
      (inl tt, mk_state g fr') /\
      f_table fr' = Some (VTuple table) /\
      f_crc fr' = Some (VInt (fold_left table_update bs c)).
Proof.
  induction bs as [| b rest IH]; intros fr c Htable Hcrc;
    cbn [map for_each fold_left].
  - exists fr; repeat split; assumption.
  - unfold bindM at 1.
    rewrite (loop_body_run g fr c b Htable Hcrc).
    apply IH; [exact Htable | reflexivity].
Qed.

(** The body run on a new frame: the outcome is that of the routine, and
    the module state is the one the call started from. *)
Lemma crc16_body_run (g : globals) (data : list byte) :
  exists fr',
    crc16_body (mk_state g (new_frame (VBytes data))) =
    (outcome_of (crc16_pure_python data), mk_state g fr').
Proof.
  destruct (for_each_run g data
              (mk_frame (Some (VBytes data)) (Some (VTuple table))
                        (Some (VInt 0xFFFF)) None)
              0xFFFF eq_refl eq_refl)
    as (fr' & Hrun & _ & Hcrc).
  exists fr'.
  rewrite crc16_fold; unfold encode.
  unfold crc16_body; run_machine.
  rewrite Hrun.
  destruct fr' as [d t c0 b0]; cbn [f_crc] in Hcrc; subst c0.
  reflexivity.
Qed.

Lemma call_crc16_run (g : globals) (data : list byte) :
  call_crc16 g (VBytes data) = (outcome_of (crc16_pure_python data), g).
Proof.
  unfold call_crc16.
  destruct (crc16_body_run g data) as (fr' & Hrun).
  rewrite Hrun; reflexivity.
Qed.

End Call.


